(** * Verification of the product risk analyzer (analyzer.py)

    A shallow embedding of the scrape-then-analyze pipeline of
    [analyzer.py]: the identifier extractor [extract_asin], the soft-block
    detector [_looks_like_captcha], the marketplace scraper
    [get_amazon_seller_info], the response extractor [_extract_json] and
    the orchestrator [analyze_product].

    - A Python [str] is a list of Unicode code points, so that [len],
      slicing and the regular expressions count characters as Python does.
    - The collaborators outside the file ([requests.get], [BeautifulSoup],
      [Image.open], the model call, [json.loads], [random.random]) are
      oracles of a [World]; each answers as a function of the trace of
      events so far.
    - Effects are explicit: a computation maps the trace so far to a
      result ([Ok] or [Raise]) and the extended trace.
    - The delays of the configuration are rationals; [time.sleep] raises
      [ValueError] on a negative length, as the interpreter does.
    - The reply of the model carries a [str]. *)

From Stdlib Require Import String Ascii.
From Stdlib Require Import ZArith NArith QArith Bool Lia Lqa List.
Import ListNotations.

Set Implicit Arguments.

(* ================================================================= *)
(** ** Python strings *)

Definition char := N.
Definition str := list char.

(** UTF-8 decoding, used only to write string constants of the source. *)
Fixpoint utf8_decode (bs : list N) : str :=
  match bs with
  | [] => []
  | b :: r =>
    if (b <? 128)%N then b :: utf8_decode r
    else if (b <? 224)%N then
      match r with
      | b1 :: r1 => ((b - 192) * 64 + (b1 - 128))%N :: utf8_decode r1
      | _ => []
      end
    else if (b <? 240)%N then
      match r with
      | b1 :: b2 :: r2 =>
        ((b - 224) * 4096 + (b1 - 128) * 64 + (b2 - 128))%N :: utf8_decode r2
      | _ => []
      end
    else
      match r with
      | b1 :: b2 :: b3 :: r3 =>
        ((b - 240) * 262144 + (b1 - 128) * 4096 + (b2 - 128) * 64 + (b3 - 128))%N
          :: utf8_decode r3
      | _ => []
      end
  end.

Definition py (s : string) : str :=
  utf8_decode (map N_of_ascii (list_ascii_of_string s)).

(** The double quote, which a string constant cannot hold. *)
Definition dq : str := [34%N].
Definition nl : str := [10%N].

Definition ch_slash : char := 47%N.
Definition ch_lbrace : char := 123%N.
Definition ch_rbrace : char := 125%N.
Definition ch_backtick : char := 96%N.
Definition ch_underscore : char := 95%N.

Definition str_eqb (a b : str) : bool :=
  if list_eq_dec N.eq_dec a b then true else false.

(** [bool(s)]: a string is true when it is not empty. *)
Definition truthy (s : str) : bool :=
  match s with [] => false | _ => true end.



(** [s.startswith(p)]. *)
Fixpoint startswith (p s : str) : bool :=
  match p, s with
  | [], _ => true
  | _ :: _, [] => false
  | a :: p', b :: s' => (a =? b)%N && startswith p' s'
  end.

(** [sub in s]. *)
Fixpoint contains (sub s : str) : bool :=
  startswith sub s ||
  match s with
  | [] => false
  | _ :: t => contains sub t
  end.

(** Whitespace as [str.strip()] and [str.isspace()] see it. *)
Definition isspace (c : char) : bool :=
  ((9 <=? c) && (c <=? 13) || (28 <=? c) && (c <=? 32) ||
   (c =? 133) || (c =? 160) || (c =? 5760) ||
   (8192 <=? c) && (c <=? 8202) ||
   (c =? 8232) || (c =? 8233) || (c =? 8239) || (c =? 8287) || (c =? 12288))%N.

Fixpoint lstrip (s : str) : str :=
  match s with
  | [] => []
  | c :: t => if isspace c then lstrip t else s
  end.

Definition rstrip (s : str) : str := rev (lstrip (rev s)).

(** [s.strip()]. *)
Definition strip (s : str) : str := rstrip (lstrip s).

(** [s.replace(old, new)] for a non-empty [old]: occurrences are replaced
    from the left and do not overlap. [skip] counts the characters of the
    occurrence just replaced that are still to be dropped. *)
Fixpoint replace_from (old new : str) (skip : nat) (s : str) : str :=
  match s with
  | [] => []
  | c :: t =>
    match skip with
    | S k => replace_from old new k t
    | O =>
      if startswith old s
      then new ++ replace_from old new (length old - 1) t
      else c :: replace_from old new 0 t
    end
  end.

Definition replace (old new s : str) : str := replace_from old new 0 s.

(** [s.find(c)] for a one-character [c]: the first index, or [-1]. *)
Fixpoint find_char (c : char) (s : str) : Z :=
  match s with
  | [] => (-1)%Z
  | x :: t =>
    if (x =? c)%N then 0%Z
    else let r := find_char c t in
         if (r =? -1)%Z then (-1)%Z else (r + 1)%Z
  end.

(** [s.rfind(c)] for a one-character [c]: the last index, or [-1]. *)
Fixpoint rfind_char (c : char) (s : str) : Z :=
  match s with
  | [] => (-1)%Z
  | x :: t =>
    let r := rfind_char c t in
    if (r =? -1)%Z then (if (x =? c)%N then 0%Z else (-1)%Z) else (r + 1)%Z
  end.

(** [s[a:b]] for indices [0 <= a], [0 <= b]. *)
Definition slice (a b : Z) (s : str) : str :=
  firstn (Z.to_nat b - Z.to_nat a) (skipn (Z.to_nat a) s).



(* ================================================================= *)
(** ** Character classes of the regular expressions *)

Definition is_digit (c : char) : bool := ((48 <=? c) && (c <=? 57))%N.
Definition is_upper_az (c : char) : bool := ((65 <=? c) && (c <=? 90))%N.
Definition is_lower_az (c : char) : bool := ((97 <=? c) && (c <=? 122))%N.

(** The four letters outside ASCII that [[A-Z]] matches under
    [re.IGNORECASE] on a [str] pattern: U+0130, U+0131, U+017F, U+212A. *)
Definition is_fold_extra (c : char) : bool :=
  ((c =? 304) || (c =? 305) || (c =? 383) || (c =? 8490))%N.

(** The class [[A-Z0-9]] under [re.IGNORECASE]. *)
Definition asin_char (c : char) : bool :=
  is_digit c || is_upper_az c || is_lower_az c || is_fold_extra c.

(** [str.upper()] on the characters of [asin_char], the only ones it is
    applied to: a-z go to A-Z, U+0131 to I, U+017F to S; the digits, A-Z,
    U+0130 and U+212A are their own upper case. *)
Definition upper_char (c : char) : char :=
  if is_lower_az c then (c - 32)%N
  else if (c =? 305)%N then 73%N
  else if (c =? 383)%N then 83%N
  else c.

Definition upper (s : str) : str := map upper_char s.

(** What the interpreter's Unicode database decides: which characters are
    alphanumeric ([str.isalnum], the class [\w] without the underscore)
    and [str.lower()]. The characters of [asin_char] are letters and
    digits. *)
Class Unicode := {
  isalnum : char -> bool;
  lower : str -> str;
  isalnum_asin_char : forall c, asin_char c = true -> isalnum c = true
}.

Section Extractor.

Context {U : Unicode}.

(** The class [\w] of a [str] pattern. *)
Definition isword (c : char) : bool := isalnum c || (c =? ch_underscore)%N.

(** Whether a word character starts [s]; false at the end of the text. *)
Definition word_ahead (s : str) : bool :=
  match s with
  | [] => false
  | c :: _ => isword c
  end.

(** [/dp/([A-Z0-9]{10})] with [re.IGNORECASE], anchored at the start of
    [s]: the captured group. *)
Definition match_dp (s : str) : option str :=
  match s with
  | c1 :: c2 :: c3 :: c4 :: rest =>
    let g := firstn 10 rest in
    if (c1 =? ch_slash)%N && ((c2 =? 100) || (c2 =? 68))%N &&
       ((c3 =? 112) || (c3 =? 80))%N && (c4 =? ch_slash)%N &&
       (length g =? 10)%nat && forallb asin_char g
    then Some g else None
  | _ => None
  end.

(** [re.search(r"/dp/([A-Z0-9]{10})", s, re.IGNORECASE)]: group 1 of the
    leftmost match. *)
Fixpoint search_dp (s : str) : option str :=
  match s with
  | [] => None
  | _ :: t =>
    match match_dp s with
    | Some g => Some g
    | None => search_dp t
    end
  end.

(** [\b([A-Z0-9]{10})\b] with [re.IGNORECASE], anchored at the start of
    [s]; [prev] tells whether the character before [s] is a word
    character (false at the start of the text). [\b] holds where exactly
    one of the two neighbours is a word character. *)
Definition match_token (prev : bool) (s : str) : option str :=
  let g := firstn 10 s in
  if xorb prev (word_ahead s) &&
     (length g =? 10)%nat && forallb asin_char g &&
     xorb (word_ahead (rev g)) (word_ahead (skipn 10 s))
  then Some g else None.

(** [re.search(r"\b([A-Z0-9]{10})\b", s, re.IGNORECASE)]: group 1 of the
    leftmost match. *)
Fixpoint search_token (prev : bool) (s : str) : option str :=
  match s with
  | [] => None
  | c :: t =>
    match match_token prev s with
    | Some g => Some g
    | None => search_token (isword c) t
    end
  end.

(** [extract_asin(value)]; [None] stands for Python's [None], as an
    argument and as the result. *)
Definition extract_asin (value : option str) : option str :=
  match value with
  | None => None
  | Some v =>
    if negb (truthy v) then None
    else
      let s := strip v in
      match search_dp s with
      | Some g => Some (upper g)
      | None =>
        match search_token false s with
        | Some g => Some (upper g)
        | None => None
        end
      end
  end.

(** [_looks_like_captcha(html)]; [and] binds tighter than [or]. *)
Definition _looks_like_captcha (html : str) : bool :=
  if negb (truthy html) then false
  else
    let lower := lower html in
    contains (py "type the characters") lower
    || contains (py "enter the characters") lower
    || contains (py "automated access") lower
    || contains (py "/errors/validatecaptcha") lower
    || (contains (py "captcha") lower && contains (py "amazon") lower).

End Extractor.

(** A database that knows the ASCII letters and digits and the four
    letters of [is_fold_extra] and lowers A-Z only: it agrees with the
    interpreter on every text whose other characters are neither letters
    nor digits. *)
Definition ascii_lower_char (c : char) : char :=
  if is_upper_az c then (c + 32)%N else c.

#[export] Instance ascii_unicode : Unicode := {
  isalnum := asin_char;
  lower := map ascii_lower_char;
  isalnum_asin_char := fun c H => H
}.

(* ================================================================= *)
(** ** Values, exceptions and the world *)

#[local] Set Warnings "-register-all".

(** What [json.loads] returns. *)
Inductive json :=
| JNull
| JBool (b : bool)
| JInt (n : Z)
| JFloat (text : str)
| JStr (s : str)
| JList (l : list json)
| JDict (d : list (str * json)).

(** A [dict] with string keys, in insertion order. *)
Definition pydict := list (str * json).



(** The exception classes the handlers of the source tell apart:
    [requests.exceptions.RequestException], [google.genai.errors.APIError]
    and every other [Exception]. *)
Inductive exn_kind := RequestException | APIError | OtherException.

(** An exception: its kind, [e.__class__.__name__] and [str(e)]. *)
Record exn := Exn {
  exn_kind_of : exn_kind;
  exn_class_name : str;
  exn_text : str
}.

Inductive result (A : Type) :=
| Ok (a : A)
| Raise (e : exn).
Arguments Ok {A} a.
Arguments Raise {A} e.

Inductive image := Image (data : str).

Inductive content := CText (s : str) | CImage (i : image).

(** A [genai.Client]; it stands for the key it was built with. *)
Inductive client := Client (api_key : str).

(** The arguments of one [requests.get] call. *)
Record request := Request {
  rq_url : str;
  rq_headers : list (str * str);
  rq_timeout : Z;
  rq_verify : bool
}.

(** What the scraper reads from a parsed page: for each of the three
    elements it looks for, [None] when [soup.find] finds nothing and
    otherwise the text [get_text] returns for it. *)
Record soup := Soup {
  a_bylineInfo : option str;
  span_po_brand : option str;
  div_merchant_info : option str
}.

Inductive event :=
| EvScraper (asin : str)          (* entry of [get_amazon_seller_info] *)
| EvGet (rq : request)            (* [requests.get] *)
| EvParse (html : str)            (* [BeautifulSoup(html, "lxml")] *)
| EvSleep (secs : Q)              (* [time.sleep] *)
| EvGenerate (model : str) (contents : list content).

Definition trace := list event.

(** The collaborators. [requests_get] stands for [requests.get] followed
    by [raise_for_status]: the body of a 2xx response, or the exception.
    [genai_Client] is the constructor [genai.Client(api_key=...)] and
    [generate_content] the call [client.models.generate_content], whose
    result is the text of the reply.
    [random_random] gives the 53 random bits of [random.random()].
    [py_str] is [str(x)] for a parsed JSON value that is not a string. *)
Record World := {
  requests_get : trace -> request -> result str;
  BeautifulSoup : str -> result soup;
  Image_open : str -> result image;
  genai_Client : str -> result client;
  generate_content : trace -> client -> str -> list content -> result str;
  json_loads : str -> result json;
  random_random : trace -> N;
  py_str : json -> str
}.

(** [AnalyzerConfig]; the delays are rationals. *)
Record AnalyzerConfig := {
  model : str;
  timeout_seconds : Z;
  max_retries : Z;
  min_delay_seconds : Q;
  max_delay_seconds : Q;
  verify_ssl : bool;
  headers : option (list (str * str))
}.

Definition default_config : AnalyzerConfig := {|
  model := py "gemini-2.5-flash";
  timeout_seconds := 15;
  max_retries := 5;
  min_delay_seconds := 2;
  max_delay_seconds := 6;
  verify_ssl := true;
  headers := None
|}.

Definition DEFAULT_HEADERS : list (str * str) :=
  [ (py "User-Agent",
     py "Mozilla/5.0 (Windows NT 10.0; Win64; x64) AppleWebKit/537.36 (KHTML, like Gecko) Chrome/120.0.0.0 Safari/537.36");
    (py "Accept-Language", py "en-US,en;q=0.9,zh-CN,zh;q=0.7") ].

(** [cfg.headers or DEFAULT_HEADERS]: an empty dict is false. *)
Definition headers_or_default (cfg : AnalyzerConfig) : list (str * str) :=
  match headers cfg with
  | Some (h :: t) => h :: t
  | _ => DEFAULT_HEADERS
  end.

(* ================================================================= *)
(** ** Computations with a trace and exceptions *)

Definition M (A : Type) := trace -> result A * trace.

Definition ret {A} (a : A) : M A := fun tr => (Ok a, tr).

Definition bind {A B} (m : M A) (k : A -> M B) : M B :=
  fun tr =>
    match m tr with
    | (Ok a, tr') => k a tr'
    | (Raise e, tr') => (Raise e, tr')
    end.

Definition raise {A} (e : exn) : M A := fun tr => (Raise e, tr).

(** [try: body except ... as e: handler e]; a handler that does not take
    the exception raises it again. *)
Definition try_except {A} (body : M A) (handler : exn -> M A) : M A :=
  fun tr =>
    match body tr with
    | (Ok a, tr') => (Ok a, tr')
    | (Raise e, tr') => handler e tr'
    end.

Definition emit (ev : event) : M unit := fun tr => (Ok tt, tr ++ [ev]).

(** An oracle's answer becomes a return or a raise. *)
Definition lift {A} (r : result A) : M A := fun tr => (r, tr).

Declare Scope py_scope.
Delimit Scope py_scope with pyM.
Notation "x <- m ;; k" := (bind m (fun x => k))
  (at level 61, m at next level, right associativity) : py_scope.
Notation "m ;; k" := (bind m (fun _ => k))
  (at level 61, right associativity) : py_scope.
Open Scope py_scope.

(* ================================================================= *)
(** ** The analyzer *)

Definition ValueError (msg : str) : exn :=
  Exn OtherException (py "ValueError") msg.

(** [json.JSONDecodeError(msg, doc, 0)]: [str(e)] names the position. *)
Definition JSONDecodeError (msg : str) : exn :=
  Exn OtherException (py "JSONDecodeError") (msg ++ py ": line 1 column 1 (char 0)").

(** [type(x).__name__] of a parsed JSON value. *)
Definition type_name (v : json) : str :=
  match v with
  | JNull => py "NoneType"
  | JBool _ => py "bool"
  | JInt _ => py "int"
  | JFloat _ => py "float"
  | JStr _ => py "str"
  | JList _ => py "list"
  | JDict _ => py "dict"
  end.



(** [re.search(r"\{.*\}", s, re.DOTALL)]: the match starts at the
    leftmost brace that has a closing brace after it and, [.*] being
    greedy, ends at the last closing brace. *)
Fixpoint search_brace_span (s : str) : option str :=
  match s with
  | [] => None
  | c :: t =>
    if (c =? ch_lbrace)%N then
      let e := rfind_char ch_rbrace t in
      if (e =? -1)%Z then search_brace_span t
      else Some (c :: firstn (Z.to_nat e + 1) t)
    else search_brace_span t
  end.

Section Analyzer.

Context {U : Unicode} (W : World).

(** [random.uniform(a, b)] is [a + (b - a) * random.random()], and
    [random.random()] is 53 random bits over [2^53]. *)
Definition random_unit (tr : trace) : Q :=
  Z.of_N (random_random W tr mod 2 ^ 53) # (2 ^ 53).

Definition random_uniform (a b : Q) (tr : trace) : Q :=
  a + (b - a) * random_unit tr.

(** [time.sleep(secs)]: a negative length is a [ValueError]. *)
Definition time_sleep (secs : Q) : M unit :=
  if Qle_bool 0 secs then emit (EvSleep secs)
  else raise (ValueError (py "sleep length must be non-negative")).

Definition _sleep_jitter (min_s max_s : Q) : M unit :=
  fun tr => time_sleep (random_uniform min_s max_s tr) tr.

(** [requests.get(...)] and [resp.raise_for_status()]. *)
Definition http_get (rq : request) : M str :=
  fun tr => (requests_get W tr rq, tr ++ [EvGet rq]).


(** The body of the [try] of one attempt. *)
Definition scrape_attempt (rq : request) (cfg : AnalyzerConfig) : M (str * str) :=
  resp <- http_get rq ;;
  if _looks_like_captcha resp then ret (py "Captcha Blocked", py "Captcha Blocked")
  else
    emit (EvParse resp) ;;
    page <- lift (BeautifulSoup W resp) ;;
    let brand_element :=
      match a_bylineInfo page with
      | Some e => Some e
      | None => span_po_brand page
      end in
    let brand :=
      match brand_element with
      | Some text => text
      | None => py "Brand Not Found"
      end in
    let brand := strip (replace (py " Store") [] (replace (py "Visit the ") [] brand)) in
    let sold_by :=
      match div_merchant_info page with
      | Some text => text
      | None => py "Sold By Not Found"
      end in
    _sleep_jitter (min_delay_seconds cfg) (max_delay_seconds cfg) ;;
    ret (brand, sold_by).

Definition scrape_failed (last_error : str) : str :=
  py "爬虫失败 (" ++ last_error ++ py ")".

Definition parse_failed (e : exn) : str :=
  py "解析失败: " ++ exn_text e.

Definition retries_exceeded : str := py "爬虫失败 (超出重试次数)".

(** [for attempt in range(cfg.max_retries)]: [n] iterations are left and
    [attempt] is the loop variable. *)
Fixpoint retry_loop (rq : request) (cfg : AnalyzerConfig) (n : nat) (attempt : Z)
  : M (str * str) :=
  match n with
  | O => ret (retries_exceeded, retries_exceeded)
  | S n' =>
    try_except (scrape_attempt rq cfg)
      (fun e =>
         match exn_kind_of e with
         | RequestException =>
           let last_error := exn_class_name e in
           if (attempt <? max_retries cfg - 1)%Z then
             _sleep_jitter (min_delay_seconds cfg) (max_delay_seconds cfg) ;;
             retry_loop rq cfg n' (attempt + 1)%Z
           else ret (scrape_failed last_error, scrape_failed last_error)
         | _ => ret (parse_failed e, parse_failed e)
         end)
  end.

(** The [requests.get] call of the scraper: [url], [headers] and the
    settings of [cfg]. *)
Definition product_request (asin : str) (cfg : AnalyzerConfig) : request :=
  let url := py "https://www.amazon.com/dp/" ++ asin in
  let headers := headers_or_default cfg in
  {| rq_url := url;
     rq_headers := headers;
     rq_timeout := timeout_seconds cfg;
     rq_verify := verify_ssl cfg |}.

(** [get_amazon_seller_info(asin, cfg)]; its entry is recorded in the
    trace. *)
Definition get_amazon_seller_info (asin : str) (cfg : AnalyzerConfig) : M (str * str) :=
  emit (EvScraper asin) ;;
  retry_loop (product_request asin cfg) cfg (Z.to_nat (max_retries cfg)) 0%Z.

Definition _extract_json (text : str) : result json :=
  if negb (truthy text) then Raise (JSONDecodeError (py "Empty response"))
  else
    let cleaned := strip (replace (py "```") [] (replace (py "```json") [] (strip text))) in
    let start := find_char ch_lbrace cleaned in
    let end_ := rfind_char ch_rbrace cleaned in
    if (start =? -1)%Z || (end_ =? -1)%Z || (end_ <=? start)%Z then
      match search_brace_span cleaned with
      | None => Raise (JSONDecodeError (py "JSON 匹配失败"))
      | Some m => json_loads W m
      end
    else json_loads W (slice start (end_ + 1) cleaned).









End Analyzer.

(* ================================================================= *)
(** ** A reference [json.loads]

    The decoder of the JSON grammar as [json.loads] reads it, for the
    concrete worlds of the examples. A number with a fraction or an
    exponent keeps its text; the text of the error is not modelled. *)

Definition is_json_ws (c : char) : bool :=
  ((c =? 32) || (c =? 9) || (c =? 10) || (c =? 13))%N.

Fixpoint skip_ws (s : str) : str :=
  match s with
  | c :: t => if is_json_ws c then skip_ws t else s
  | [] => []
  end.

Definition hex_value (c : char) : option N :=
  if is_digit c then Some (c - 48)%N
  else if ((97 <=? c) && (c <=? 102))%N then Some (c - 87)%N
  else if ((65 <=? c) && (c <=? 70))%N then Some (c - 55)%N
  else None.

Definition hex4 (s : str) : option (N * str) :=
  match s with
  | a :: b :: c :: d :: r =>
    match hex_value a, hex_value b, hex_value c, hex_value d with
    | Some x, Some y, Some z, Some w => Some (x * 4096 + y * 256 + z * 16 + w, r)%N
    | _, _, _, _ => None
    end
  | _ => None
  end.

(** The characters of a string after its opening quote, up to the
    closing quote. *)
Fixpoint parse_string (fuel : nat) (s : str) : option (str * str) :=
  match fuel with
  | O => None
  | S f =>
    match s with
    | [] => None
    | 34%N :: r => Some ([], r)
    | 92%N :: r =>
      match r with
      | [] => None
      | 117%N :: r1 =>
        match hex4 r1 with
        | None => None
        | Some (hi, r2) =>
          let pair :=
            if ((55296 <=? hi) && (hi <=? 56319))%N then
              match r2 with
              | 92%N :: 117%N :: r3 =>
                match hex4 r3 with
                | Some (lo, r4) =>
                  if ((56320 <=? lo) && (lo <=? 57343))%N
                  then Some (65536 + (hi - 55296) * 1024 + (lo - 56320), r4)%N
                  else None
                | None => None
                end
              | _ => None
              end
            else None in
          let '(c, rest) := match pair with Some p => p | None => (hi, r2) end in
          match parse_string f rest with
          | Some (t, r') => Some (c :: t, r')
          | None => None
          end
        end
      | e :: r1 =>
        let c :=
          if (e =? 34)%N then Some 34%N
          else if (e =? 92)%N then Some 92%N
          else if (e =? 47)%N then Some 47%N
          else if (e =? 98)%N then Some 8%N
          else if (e =? 102)%N then Some 12%N
          else if (e =? 110)%N then Some 10%N
          else if (e =? 114)%N then Some 13%N
          else if (e =? 116)%N then Some 9%N
          else None in
        match c with
        | None => None
        | Some c =>
          match parse_string f r1 with
          | Some (t, r') => Some (c :: t, r')
          | None => None
          end
        end
      end
    | c :: r =>
      if (c <? 32)%N then None
      else
        match parse_string f r with
        | Some (t, r') => Some (c :: t, r')
        | None => None
        end
    end
  end.

Fixpoint take_digits (s : str) : str * str :=
  match s with
  | c :: t => if is_digit c then let '(d, r) := take_digits t in (c :: d, r) else ([], s)
  | [] => ([], [])
  end.

Definition digits_value (d : str) : Z :=
  fold_left (fun acc c => (acc * 10 + Z.of_N (c - 48))%Z) d 0%Z.

(** A number at the start of [s]: an optional minus, an integer part
    without a leading zero, an optional fraction and an optional
    exponent. *)
Definition parse_number (s : str) : option (json * str) :=
  let '(neg, s1) := match s with 45%N :: t => (true, t) | _ => (false, s) end in
  let '(int_part, s2) :=
    match s1 with
    | 48%N :: t => ([48%N], t)
    | _ => take_digits s1
    end in
  match int_part with
  | [] => None
  | _ =>
    let '(frac, s3) :=
      match s2 with
      | 46%N :: t =>
        match take_digits t with
        | ([], _) => ([], s2)
        | (d, r) => (46%N :: d, r)
        end
      | _ => ([], s2)
      end in
    let '(expo, s4) :=
      match s3 with
      | e :: t =>
        if ((e =? 101) || (e =? 69))%N then
          let '(sign, t1) :=
            match t with
            | sg :: t' => if ((sg =? 43) || (sg =? 45))%N then ([sg], t') else ([], t)
            | [] => ([], t)
            end in
          match take_digits t1 with
          | ([], _) => ([], s3)
          | (d, r) => (e :: sign ++ d, r)
          end
        else ([], s3)
      | [] => ([], s3)
      end in
    match frac, expo with
    | [], [] =>
      let v := digits_value int_part in
      Some (JInt (if neg then (- v)%Z else v), s4)
    | _, _ =>
      Some (JFloat ((if neg then [45%N] else []) ++ int_part ++ frac ++ expo), s4)
    end
  end.

(** [d[key] = v]: a key that is present keeps its place. *)
Fixpoint dict_set (d : pydict) (key : str) (v : json) : pydict :=
  match d with
  | [] => [(key, v)]
  | (k, x) :: t => if str_eqb k key then (k, v) :: t else (k, x) :: dict_set t key v
  end.

Definition strip_prefix (p s : str) : option str :=
  if startswith p s then Some (skipn (length p) s) else None.

(** One value at the start of [s], after white space has been skipped. *)
Fixpoint parse_value (fuel : nat) (s : str) : option (json * str) :=
  match fuel with
  | O => None
  | S f =>
    match s with
    | [] => None
    | 34%N :: r =>
      match parse_string (S (length r)) r with
      | Some (t, r') => Some (JStr t, r')
      | None => None
      end
    | 123%N :: r =>
      match skip_ws r with
      | 125%N :: r' => Some (JDict [], r')
      | r0 => parse_members f r0 []
      end
    | 91%N :: r =>
      match skip_ws r with
      | 93%N :: r' => Some (JList [], r')
      | r0 => parse_elements f r0 []
      end
    | _ =>
      match strip_prefix (py "null") s, strip_prefix (py "true") s,
            strip_prefix (py "false") s, strip_prefix (py "NaN") s,
            strip_prefix (py "Infinity") s, strip_prefix (py "-Infinity") s with
      | Some r, _, _, _, _, _ => Some (JNull, r)
      | _, Some r, _, _, _, _ => Some (JBool true, r)
      | _, _, Some r, _, _, _ => Some (JBool false, r)
      | _, _, _, Some r, _, _ => Some (JFloat (py "NaN"), r)
      | _, _, _, _, Some r, _ => Some (JFloat (py "Infinity"), r)
      | _, _, _, _, _, Some r => Some (JFloat (py "-Infinity"), r)
      | _, _, _, _, _, _ => parse_number s
      end
    end
  end
(** The members of an object from a key on, [acc] holding those read. *)
with parse_members (fuel : nat) (s : str) (acc : pydict) : option (json * str) :=
  match fuel with
  | O => None
  | S f =>
    match s with
    | 34%N :: r =>
      match parse_string (S (length r)) r with
      | None => None
      | Some (key, r1) =>
        match skip_ws r1 with
        | 58%N :: r2 =>
          match parse_value f (skip_ws r2) with
          | None => None
          | Some (v, r3) =>
            match skip_ws r3 with
            | 125%N :: r4 => Some (JDict (dict_set acc key v), r4)
            | 44%N :: r4 => parse_members f (skip_ws r4) (dict_set acc key v)
            | _ => None
            end
          end
        | _ => None
        end
      end
    | _ => None
    end
  end
(** The elements of an array from a value on, [acc] holding those read,
    last first. *)
with parse_elements (fuel : nat) (s : str) (acc : list json) : option (json * str) :=
  match fuel with
  | O => None
  | S f =>
    match parse_value f s with
    | None => None
    | Some (v, r) =>
      match skip_ws r with
      | 93%N :: r' => Some (JList (rev (v :: acc)), r')
      | 44%N :: r' => parse_elements f (skip_ws r') (v :: acc)
      | _ => None
      end
    end
  end.

(** The decoder's error; what [str(e)] says is left out. *)
Definition decode_error : exn :=
  Exn OtherException (py "JSONDecodeError") (py "invalid JSON").

Definition py_json_loads (s : str) : result json :=
  match parse_value (S (length s)) (skip_ws s) with
  | Some (v, r) =>
    match skip_ws r with
    | [] => Ok v
    | _ => Raise decode_error
    end
  | None => Raise decode_error
  end.

(* ================================================================= *)
(** ** Configurations and worlds of the examples *)





Fixpoint decimal_digits (fuel : nat) (n : N) : str :=
  match fuel with
  | O => []
  | S f =>
    if (n <? 10)%N then [(48 + n)%N]
    else decimal_digits f (n / 10)%N ++ [(48 + n mod 10)%N]
  end.

(** [str(x)] for the values that are not strings; lists and dicts, which
    the examples do not print, are left as their type name. *)
Definition demo_str (v : json) : str :=
  match v with
  | JNull => py "None"
  | JBool true => py "True"
  | JBool false => py "False"
  | JInt n =>
    (if (n <? 0)%Z then py "-" else []) ++
    decimal_digits (S (N.to_nat (N.size (Z.abs_N n)))) (Z.abs_N n)
  | JFloat t => t
  | JStr s => s
  | _ => type_name v
  end.

(** A world that answers every request with [net], parses every page as
    [page] and has the model reply [reply]; the client constructor
    refuses an empty key; [random.random()] is 0.5. *)
Definition demo_world (net : result str) (page : result soup) (reply : result str)
  : World := {|
  requests_get := fun _ _ => net;
  BeautifulSoup := fun _ => page;
  Image_open := fun body => Ok (Image body);
  genai_Client := fun key =>
    if truthy key then Ok (Client key)
    else Raise (ValueError (py "Missing key inputs argument!"));
  generate_content := fun _ _ _ _ => reply;
  json_loads := py_json_loads;
  random_random := fun _ => (2 ^ 52)%N;
  py_str := demo_str
|}.

Definition ConnectionError : exn :=
  Exn RequestException (py "ConnectionError") (py "connection refused").

Definition ServerError : exn :=
  Exn APIError (py "ServerError") (py "503 UNAVAILABLE").

Definition low_risk_reply : str :=
  py "{" ++ dq ++ py "综合风险等级" ++ dq ++ py ": " ++ dq ++ py "低风险" ++ dq ++ py "}".

(** The network is down; the model answers. *)
Definition offline_world : World :=
  demo_world (Raise ConnectionError) (Ok (Soup None None None)) (Ok low_risk_reply).

(** Every page is the challenge page. *)
Definition blocked_world : World :=
  demo_world (Ok (py "To continue, please type the characters you see"))
             (Ok (Soup None None None)) (Ok low_risk_reply).


(** The model service is down. *)
Definition no_model_world : World :=
  demo_world (Raise ConnectionError) (Ok (Soup None None None)) (Raise ServerError).




(* ================================================================= *)
(** ** Notions used to state the properties *)

(** [m] only appends events, all of them in [P]. *)
Definition emits {A} (P : event -> Prop) (m : M A) : Prop :=
  forall tr, exists evs, snd (m tr) = tr ++ evs /\ Forall P evs.

(** [m] returns, from every trace. *)
Definition returns {A} (m : M A) : Prop :=
  forall tr, exists a, fst (m tr) = Ok a.

Section Notions.

Context {U : Unicode} (W : World).





(** Whether a word character ends [pre]; [prev] when [pre] is empty. *)
Fixpoint word_behind (prev : bool) (pre : str) : bool :=
  match pre with
  | [] => prev
  | c :: t => word_behind (isword c) t
  end.

(** The first pattern matches at index [i] of [s] and captures [g]:
    a slash, [d] or [D], [p] or [P], a slash and ten characters of the
    class. *)
Definition dp_at (s : str) (i : nat) (g : str) : Prop :=
  exists pre d p post,
    s = pre ++ [ch_slash; d; p; ch_slash] ++ g ++ post /\
    length pre = i /\
    (d = 100%N \/ d = 68%N) /\ (p = 112%N \/ p = 80%N) /\
    length g = 10%nat /\ forallb asin_char g = true.

(** The second pattern matches at index [i] of [s] and captures [g]: ten
    characters of the class with a word boundary on each side. [prev]
    tells whether a word character comes before [s]. *)
Definition token_at (prev : bool) (s : str) (i : nat) (g : str) : Prop :=
  exists pre post,
    s = pre ++ g ++ post /\
    length pre = i /\
    length g = 10%nat /\ forallb asin_char g = true /\
    xorb (word_behind prev pre) (word_ahead g) = true /\
    xorb (word_ahead (rev g)) (word_ahead post) = true.

(** A canonical code: ten characters of the class in upper case. *)
Definition canonical (c : str) : Prop :=
  length c = 10%nat /\ forallb asin_char c = true /\ upper c = c.

End Notions.

(** Whether the character [c] occurs in [s]. *)
Definition has_char (c : char) (s : str) : bool := existsb (N.eqb c) s.

(** The text of a JSON object around [mid]: an opening brace, [mid], a
    closing brace. *)
Definition braced (mid : str) : str := ch_lbrace :: mid ++ [ch_rbrace].


Section OrchestratorNotions.

Context {U : Unicode} (W : World).




End OrchestratorNotions.

(** The object of the example of the specification. *)
Definition object_a_1 : json := JDict [(py "a", JInt 1)].

Unset Implicit Arguments.
(* ================================================================= *)
(** * Properties *)

(** ** Computations *)

Lemma bind_ok {A B} (m : M A) (k : A -> M B) tr a tr' :
  m tr = (Ok a, tr') -> bind m k tr = k a tr'.
Proof. intros H. unfold bind. rewrite H. reflexivity. Qed.


Lemma try_except_ok {A} (m : M A) h tr a tr' :
  m tr = (Ok a, tr') -> try_except m h tr = (Ok a, tr').
Proof. intros H. unfold try_except. rewrite H. reflexivity. Qed.




Lemma emits_raise {A} P e : emits P (@raise A e).
Proof. intros tr. exists []. rewrite app_nil_r. auto. Qed.





Lemma emits_weaken {A} (P Q : event -> Prop) (m : M A) :
  (forall ev, P ev -> Q ev) -> emits P m -> emits Q m.
Proof.
  intros HPQ Hm tr. destruct (Hm tr) as (evs & E & F).
  exists evs. split; auto. eapply Forall_impl; eauto.
Qed.


Lemma returns_emit ev : returns (emit ev).
Proof. intros tr. exists tt. reflexivity. Qed.



Section ScraperFacts.

Context {U : Unicode} (W : World).

(** ** The jitter sleep *)










(** ** One attempt of the scraper *)


Lemma scrape_attempt_captcha rq cfg tr body :
  requests_get W tr rq = Ok body ->
  _looks_like_captcha body = true ->
  scrape_attempt W rq cfg tr
  = (Ok (py "Captcha Blocked", py "Captcha Blocked"), tr ++ [EvGet rq]).
Proof.
  intros H Hc. unfold scrape_attempt.
  erewrite bind_ok by (unfold http_get; rewrite H; reflexivity).
  rewrite Hc. reflexivity.
Qed.




(** ** The retry loop *)






End ScraperFacts.

Section ScraperClaims.

Context {U : Unicode} (W : World).


(** C3. When the first response of the scraper is a body in which the
    detector finds a block-page marker, the scraper returns the
    soft-block pair at once: the trace holds its entry and one GET, and
    no retry, no parsing of the page and no sleep. *)
Theorem soft_block_short_circuit
    (asin : str) (cfg : AnalyzerConfig) (tr : trace) (body : str) :
  (1 <= max_retries cfg)%Z ->
  requests_get W (tr ++ [EvScraper asin]) (product_request asin cfg) = Ok body ->
  _looks_like_captcha body = true ->
  get_amazon_seller_info W asin cfg tr
  = (Ok (py "Captcha Blocked", py "Captcha Blocked"),
     tr ++ [EvScraper asin; EvGet (product_request asin cfg)]).
Proof.
  intros Hn Hget Hc. unfold get_amazon_seller_info.
  erewrite bind_ok by reflexivity.
  destruct (Z.to_nat (max_retries cfg)) as [| n] eqn:En; [lia |].
  simpl. erewrite try_except_ok by (eapply scrape_attempt_captcha; eassumption).
  rewrite <- app_assoc. reflexivity.
Qed.


End ScraperClaims.



Lemma soft_block_short_circuit_witness :
  get_amazon_seller_info blocked_world (py "B000000000") default_config []
  = (Ok (py "Captcha Blocked", py "Captcha Blocked"),
     [] ++ [EvScraper (py "B000000000");
            EvGet (product_request (py "B000000000") default_config)]).
Proof.
  apply (@soft_block_short_circuit ascii_unicode blocked_world (py "B000000000")
           default_config [] (py "To continue, please type the characters you see")).
  - vm_compute. discriminate.
  - reflexivity.
  - vm_compute. reflexivity.
Defined.


(* ================================================================= *)
(** ** The identifier extractor *)

Section ExtractorFacts.

Context {U : Unicode}.

Lemma firstn_exact {A} (g post : list A) n :
  length g = n -> firstn n (g ++ post) = g.
Proof.
  intros <-. rewrite firstn_app, Nat.sub_diag, firstn_all. simpl. apply app_nil_r.
Qed.

Lemma skipn_exact {A} (g post : list A) n :
  length g = n -> skipn n (g ++ post) = post.
Proof.
  intros <-. rewrite skipn_app, Nat.sub_diag, skipn_all. reflexivity.
Qed.

Lemma match_dp_spec s g : match_dp s = Some g <-> dp_at s 0 g.
Proof.
  split.
  - destruct s as [| c1 [| c2 [| c3 [| c4 rest]]]]; try discriminate.
    unfold match_dp.
    destruct (_ && _) eqn:E; [| discriminate].
    intros H. injection H as <-.
    repeat (apply andb_true_iff in E; destruct E as [E ?]).
    apply N.eqb_eq in E. subst c1.
    match goal with H : (c4 =? _)%N = true |- _ => apply N.eqb_eq in H; subst c4 end.
    repeat match goal with
           | H : (_ || _)%bool = true |- _ => apply orb_true_iff in H
           | H : (_ =? _)%nat = true |- _ => apply Nat.eqb_eq in H
           | H : (_ =? _)%N = true \/ (_ =? _)%N = true |- _ =>
             rewrite !N.eqb_eq in H
           end.
    exists [], c2, c3, (skipn 10 rest).
    split; [| auto 6].
    change (ch_slash :: c2 :: c3 :: ch_slash :: rest
            = ch_slash :: c2 :: c3 :: ch_slash :: (firstn 10 rest ++ skipn 10 rest)).
    rewrite firstn_skipn. reflexivity.
  - intros (pre & d & p & post & -> & Hlen & Hd & Hp & Hg & Hc).
    destruct pre; [| discriminate]. unfold match_dp. cbn [app]. cbv zeta.
    rewrite (firstn_exact g post _ Hg), Hg, Hc.
    destruct Hd as [-> | ->], Hp as [-> | ->]; reflexivity.
Qed.

Lemma dp_at_nil i g : ~ dp_at [] i g.
Proof.
  intros (pre & d & p & post & E & _). destruct pre; discriminate.
Qed.

Lemma dp_at_cons c t i g : dp_at (c :: t) (S i) g <-> dp_at t i g.
Proof.
  split.
  - intros (pre & d & p & post & E & Hlen & H).
    destruct pre as [| c' pre]; [discriminate |].
    injection E as -> ->. injection Hlen as Hlen.
    exists pre, d, p, post. auto.
  - intros (pre & d & p & post & -> & <- & H).
    exists (c :: pre), d, p, post. auto.
Qed.

Lemma search_dp_none s : search_dp s = None <-> forall i g, ~ dp_at s i g.
Proof.
  induction s as [| c t IH]; cbn [search_dp].
  - split; auto using dp_at_nil.
  - destruct (match_dp (c :: t)) as [g0 |] eqn:E.
    + split; [discriminate |]. intros H. exfalso.
      apply (H 0%nat g0), match_dp_spec, E.
    + rewrite IH. split.
      * intros H [| i] g Hat.
        -- apply match_dp_spec in Hat. congruence.
        -- apply dp_at_cons in Hat. exact (H i g Hat).
      * intros H i g Hat. apply (H (S i) g), dp_at_cons, Hat.
Qed.

Lemma search_dp_leftmost s i g :
  dp_at s i g -> (forall j g', (j < i)%nat -> ~ dp_at s j g') ->
  search_dp s = Some g.
Proof.
  revert i. induction s as [| c t IH]; intros i Hat Hleft.
  - exfalso. exact (dp_at_nil _ _ Hat).
  - cbn [search_dp]. destruct i as [| i].
    + apply match_dp_spec in Hat. rewrite Hat. reflexivity.
    + destruct (match_dp (c :: t)) as [g0 |] eqn:E.
      * exfalso. apply (Hleft 0%nat g0); [lia |]. apply match_dp_spec, E.
      * apply dp_at_cons in Hat. apply (IH i Hat).
        intros j g' Hj Hat'. apply (Hleft (S j) g'); [lia |].
        apply dp_at_cons, Hat'.
Qed.

Lemma search_dp_shape s g :
  search_dp s = Some g -> length g = 10%nat /\ forallb asin_char g = true.
Proof.
  induction s as [| c t IH]; cbn [search_dp]; [discriminate |].
  destruct (match_dp (c :: t)) as [g0 |] eqn:E; [| exact IH].
  intros H. injection H as ->. apply match_dp_spec in E.
  destruct E as (_ & _ & _ & _ & _ & _ & _ & _ & Hg & Hc). auto.
Qed.

Lemma match_token_spec prev s g :
  match_token prev s = Some g <-> token_at prev s 0 g.
Proof.
  unfold match_token. split.
  - destruct (_ && _) eqn:E; [| discriminate].
    intros H. injection H as <-.
    repeat (apply andb_true_iff in E; destruct E as [E ?]).
    match goal with H : (_ =? _)%nat = true |- _ => apply Nat.eqb_eq in H end.
    exists [], (skipn 10 s).
    split; [symmetry; apply (firstn_skipn 10 s) |].
    repeat split; auto.
    destruct s as [| c t]; [discriminate |]. exact E.
  - intros (pre & post & -> & Hlen & Hg & Hc & Hb & Ha).
    destruct pre; [| discriminate]. cbn [app word_behind] in *.
    rewrite (firstn_exact g post _ Hg), (skipn_exact g post _ Hg), Hg, Hc, Ha.
    destruct g as [| c g']; [discriminate |].
    cbn [app word_ahead] in *. rewrite Hb. reflexivity.
Qed.

Lemma token_at_nil prev i g : ~ token_at prev [] i g.
Proof.
  intros (pre & post & E & _ & Hg & _).
  destruct pre; [destruct g |]; discriminate.
Qed.

Lemma token_at_cons prev c t i g :
  token_at prev (c :: t) (S i) g <-> token_at (isword c) t i g.
Proof.
  split.
  - intros (pre & post & E & Hlen & H).
    destruct pre as [| c' pre]; [discriminate |].
    injection E as -> ->. injection Hlen as Hlen.
    exists pre, post. auto.
  - intros (pre & post & -> & <- & H).
    exists (c :: pre), post. auto.
Qed.

Lemma search_token_none s : forall prev,
  search_token prev s = None <-> forall i g, ~ token_at prev s i g.
Proof.
  induction s as [| c t IH]; intros prev; cbn [search_token].
  - split; auto using token_at_nil.
  - destruct (match_token prev (c :: t)) as [g0 |] eqn:E.
    + split; [discriminate |]. intros H. exfalso.
      apply (H 0%nat g0), match_token_spec, E.
    + rewrite IH. split.
      * intros H [| i] g Hat.
        -- apply match_token_spec in Hat. congruence.
        -- apply token_at_cons in Hat. exact (H i g Hat).
      * intros H i g Hat. apply (H (S i) g), token_at_cons, Hat.
Qed.

Lemma search_token_leftmost s : forall prev i g,
  token_at prev s i g -> (forall j g', (j < i)%nat -> ~ token_at prev s j g') ->
  search_token prev s = Some g.
Proof.
  induction s as [| c t IH]; intros prev i g Hat Hleft.
  - exfalso. exact (token_at_nil _ _ _ Hat).
  - cbn [search_token]. destruct i as [| i].
    + apply match_token_spec in Hat. rewrite Hat. reflexivity.
    + destruct (match_token prev (c :: t)) as [g0 |] eqn:E.
      * exfalso. apply (Hleft 0%nat g0); [lia |]. apply match_token_spec, E.
      * apply token_at_cons in Hat. apply (IH _ i g Hat).
        intros j g' Hj Hat'. apply (Hleft (S j) g'); [lia |].
        apply token_at_cons, Hat'.
Qed.

Lemma search_token_shape s : forall prev g,
  search_token prev s = Some g -> length g = 10%nat /\ forallb asin_char g = true.
Proof.
  induction s as [| c t IH]; intros prev g; cbn [search_token]; [discriminate |].
  destruct (match_token prev (c :: t)) as [g0 |] eqn:E; [| apply IH].
  intros H. injection H as ->. apply match_token_spec in E.
  destruct E as (_ & _ & _ & _ & Hg & Hc & _). auto.
Qed.

End ExtractorFacts.

Section ExtractorClaims.

Context {U : Unicode}.

Lemma asin_char_range c :
  asin_char c = true ->
  (48 <= c <= 57 \/ 65 <= c <= 90 \/ 97 <= c <= 122 \/
   c = 304 \/ c = 305 \/ c = 383 \/ c = 8490)%N.
Proof.
  unfold asin_char, is_digit, is_upper_az, is_lower_az, is_fold_extra.
  rewrite !orb_true_iff, !andb_true_iff, !N.leb_le, !N.eqb_eq. lia.
Qed.

Lemma asin_char_not_space c : asin_char c = true -> isspace c = false.
Proof.
  intros H. apply asin_char_range in H.
  apply not_true_is_false. unfold isspace.
  rewrite !orb_true_iff, !andb_true_iff, !N.leb_le, !N.eqb_eq. lia.
Qed.

Lemma asin_char_not_slash c : asin_char c = true -> c <> ch_slash.
Proof. intros H. apply asin_char_range in H. unfold ch_slash. lia. Qed.

Lemma asin_char_word c : asin_char c = true -> isword c = true.
Proof. intros H. unfold isword. rewrite (isalnum_asin_char c H). reflexivity. Qed.

Lemma upper_char_asin c :
  asin_char c = true ->
  asin_char (upper_char c) = true /\ upper_char (upper_char c) = upper_char c.
Proof.
  intros H. apply asin_char_range in H.
  unfold upper_char, is_lower_az.
  destruct ((97 <=? c) && (c <=? 122))%N eqn:Hl.
  - apply andb_true_iff in Hl. rewrite !N.leb_le in Hl.
    assert (Hu : (65 <= c - 32 <= 90)%N) by lia.
    split.
    + unfold asin_char, is_digit, is_upper_az, is_lower_az, is_fold_extra.
      rewrite !orb_true_iff, !andb_true_iff, !N.leb_le, !N.eqb_eq. lia.
    + replace ((97 <=? c - 32)%N) with false by (symmetry; apply N.leb_gt; lia).
      simpl.
      replace ((c - 32 =? 305)%N) with false by (symmetry; apply N.eqb_neq; lia).
      replace ((c - 32 =? 383)%N) with false by (symmetry; apply N.eqb_neq; lia).
      reflexivity.
  - assert (Hn : ~ (97 <= c <= 122)%N).
    { intros [H1 H2]. apply N.leb_le in H1, H2. rewrite H1, H2 in Hl. discriminate. }
    destruct (N.eqb_spec c 305) as [-> | H305]; [split; reflexivity |].
    destruct (N.eqb_spec c 383) as [-> | H383]; [split; reflexivity |].
    rewrite Hl.
    rewrite (proj2 (N.eqb_neq _ _) H305), (proj2 (N.eqb_neq _ _) H383).
    split; [| reflexivity].
    unfold asin_char, is_digit, is_upper_az, is_lower_az, is_fold_extra.
    rewrite !orb_true_iff, !andb_true_iff, !N.leb_le, !N.eqb_eq. lia.
Qed.

Lemma upper_asin (g : str) :
  forallb asin_char g = true ->
  forallb asin_char (upper g) = true /\ upper (upper g) = upper g.
Proof.
  induction g as [| c g IH]; simpl; [auto |].
  intros H. apply andb_true_iff in H. destruct H as [Hc Hg].
  destruct (upper_char_asin c Hc) as [H1 H2], (IH Hg) as [H3 H4].
  fold (upper g). fold (upper (upper g)). rewrite H1, H2, H3, H4. auto.
Qed.

Lemma upper_length (g : str) : length (upper g) = length g.
Proof. apply length_map. Qed.

Lemma lstrip_asin (g : str) : forallb asin_char g = true -> lstrip g = g.
Proof.
  destruct g as [| c g]; [reflexivity |]. simpl. intros H.
  apply andb_true_iff in H. rewrite (asin_char_not_space c (proj1 H)). reflexivity.
Qed.

Lemma forallb_rev {A} (f : A -> bool) l : forallb f (rev l) = forallb f l.
Proof.
  destruct (forallb f l) eqn:E.
  - apply forallb_forall. intros x Hx. apply in_rev in Hx.
    exact (proj1 (forallb_forall f l) E x Hx).
  - apply not_true_is_false. intros H. rewrite forallb_forall in H.
    assert (forallb f l = true); [| congruence].
    apply forallb_forall. intros x Hx. apply H, in_rev. rewrite rev_involutive. exact Hx.
Qed.

Lemma strip_asin (g : str) : forallb asin_char g = true -> strip g = g.
Proof.
  intros H. unfold strip, rstrip. rewrite (lstrip_asin g H).
  rewrite lstrip_asin by (rewrite forallb_rev; exact H).
  apply rev_involutive.
Qed.

Lemma search_dp_asin (g : str) : forallb asin_char g = true -> search_dp g = None.
Proof.
  intros H. apply search_dp_none.
  intros i g' (pre & d & p & post & E & _).
  assert (Hs : In ch_slash g).
  { rewrite E. apply in_or_app. right. left. reflexivity. }
  apply (asin_char_not_slash ch_slash); [| reflexivity].
  exact (proj1 (forallb_forall _ _) H _ Hs).
Qed.

Lemma word_ahead_asin (g : str) :
  g <> [] -> forallb asin_char g = true -> word_ahead g = true.
Proof.
  destruct g as [| c g]; [congruence |]. simpl. intros _ H.
  apply andb_true_iff in H. apply asin_char_word, H.
Qed.

Lemma search_token_asin (g : str) :
  length g = 10%nat -> forallb asin_char g = true -> search_token false g = Some g.
Proof.
  intros Hlen Hc.
  assert (Hg : g <> []) by (intros ->; discriminate).
  destruct g as [| c g'] eqn:Eg; [congruence |]. rewrite <- Eg in *.
  cut (match_token false g = Some g).
  { intros Hm. rewrite Eg. cbn [search_token]. rewrite <- Eg, Hm. reflexivity. }
  apply match_token_spec. exists [], []. rewrite app_nil_r.
  repeat split; auto.
  - cbn [word_behind]. rewrite (word_ahead_asin g Hg Hc). reflexivity.
  - rewrite word_ahead_asin; [reflexivity | | rewrite forallb_rev; exact Hc].
    intros Hr. apply (f_equal (@length _)) in Hr. rewrite length_rev, Hlen in Hr.
    discriminate.
Qed.

(** Ten characters of the class are their own identifier, in upper
    case. *)
Lemma extract_asin_code (g : str) :
  length g = 10%nat -> forallb asin_char g = true ->
  extract_asin (Some g) = Some (upper g).
Proof.
  intros Hlen Hc. unfold extract_asin.
  destruct g as [| c g'] eqn:Eg; [discriminate |]. rewrite <- Eg in *.
  replace (truthy g) with true by (rewrite Eg; reflexivity). cbn [negb].
  rewrite (strip_asin g Hc), (search_dp_asin g Hc), (search_token_asin g Hlen Hc).
  reflexivity.
Qed.

(** What [extract_asin] returns is a canonical code. *)
Lemma extract_asin_canonical v c : extract_asin v = Some c -> canonical c.
Proof.
  unfold extract_asin. destruct v as [v |]; [| discriminate].
  destruct (negb (truthy v)); [discriminate |].
  destruct (search_dp (strip v)) as [g |] eqn:Edp.
  - intros H. injection H as <-. apply search_dp_shape in Edp.
    destruct Edp as [Hl Hc]. destruct (upper_asin g Hc).
    repeat split; auto. rewrite upper_length. exact Hl.
  - destruct (search_token false (strip v)) as [g |] eqn:Etk; [| discriminate].
    intros H. injection H as <-. apply search_token_shape in Etk.
    destruct Etk as [Hl Hc]. destruct (upper_asin g Hc).
    repeat split; auto. rewrite upper_length. exact Hl.
Qed.

(** C6. [extract_asin] returns absence for an absent or empty value;
    otherwise, on the stripped text, the group of the leftmost match of
    the path form [/dp/] plus ten class characters (case-insensitive), in
    upper case; when the path form matches nowhere, the leftmost
    ten-character token between word boundaries, in upper case; and
    absence when neither matches anywhere. *)
Theorem extract_asin_spec (v : str) :
  extract_asin None = None
  /\ (v = [] -> extract_asin (Some v) = None)
  /\ (forall i g,
        dp_at (strip v) i g ->
        (forall j g', (j < i)%nat -> ~ dp_at (strip v) j g') ->
        extract_asin (Some v) = Some (upper g))
  /\ (forall i g,
        (forall j g', ~ dp_at (strip v) j g') ->
        token_at false (strip v) i g ->
        (forall j g', (j < i)%nat -> ~ token_at false (strip v) j g') ->
        extract_asin (Some v) = Some (upper g))
  /\ ((forall j g', ~ dp_at (strip v) j g') ->
      (forall j g', ~ token_at false (strip v) j g') ->
      extract_asin (Some v) = None).
Proof.
  split; [reflexivity |]. split; [intros ->; reflexivity |].
  destruct v as [| c t] eqn:Ev.
  - repeat split.
    + intros i g H _. exfalso. exact (dp_at_nil _ _ H).
    + intros i g _ H _. exfalso. exact (token_at_nil _ _ _ H).
  - rewrite <- Ev. unfold extract_asin.
    replace (truthy v) with true by (rewrite Ev; reflexivity). cbn [negb].
    repeat split.
    + intros i g Hat Hleft. rewrite (search_dp_leftmost _ _ _ Hat Hleft). reflexivity.
    + intros i g Hno Hat Hleft.
      rewrite (proj2 (search_dp_none _) Hno), (search_token_leftmost _ _ _ _ Hat Hleft).
      reflexivity.
    + intros Hno Hno'.
      rewrite (proj2 (search_dp_none _) Hno), (proj2 (search_token_none _ _) Hno').
      reflexivity.
Qed.

(** C7. Extraction is idempotent: feeding back what [extract_asin]
    returned gives the same result, and a canonical ten-character code is
    returned unchanged. *)
Theorem extract_asin_idempotent :
  (forall v, extract_asin (extract_asin v) = extract_asin v)
  /\ (forall s c, extract_asin (Some s) = Some c -> extract_asin (Some c) = Some c)
  /\ (forall c, canonical c -> extract_asin (Some c) = Some c).
Proof.
  assert (Hcanon : forall c, canonical c -> extract_asin (Some c) = Some c).
  { intros c (Hl & Hc & Hu). rewrite (extract_asin_code c Hl Hc), Hu. reflexivity. }
  assert (Hsome : forall v c, extract_asin v = Some c -> extract_asin (Some c) = Some c).
  { intros v c H. apply Hcanon. exact (extract_asin_canonical v c H). }
  split; [| split].
  - intros v. destruct (extract_asin v) as [c |] eqn:E; [| reflexivity].
    exact (Hsome v c E).
  - intros s c H. exact (Hsome (Some s) c H).
  - exact Hcanon.
Qed.

End ExtractorClaims.

(* ================================================================= *)
(** ** The response extractor *)

Section StringFacts.

Lemma has_char_false_iff c s : has_char c s = false <-> ~ In c s.
Proof.
  unfold has_char. split.
  - intros H Hin. assert (existsb (N.eqb c) s = true); [| congruence].
    apply existsb_exists. exists c. split; [exact Hin | apply N.eqb_refl].
  - intros H. apply not_true_is_false. intros E.
    apply existsb_exists in E. destruct E as (x & Hx & Ex).
    apply N.eqb_eq in Ex. subst x. exact (H Hx).
Qed.

Lemma lstrip_suffix (s : str) : exists sp, s = sp ++ lstrip s.
Proof.
  induction s as [| c t IH]; simpl.
  - exists []. reflexivity.
  - destruct (isspace c).
    + destruct IH as (sp & E). exists (c :: sp). simpl. rewrite <- E. reflexivity.
    + exists []. reflexivity.
Qed.

Lemma lstrip_In c (s : str) : In c (lstrip s) -> In c s.
Proof.
  destruct (lstrip_suffix s) as (sp & E). intros H.
  rewrite E. apply in_or_app. right. exact H.
Qed.

Lemma rstrip_In c (s : str) : In c (rstrip s) -> In c s.
Proof.
  unfold rstrip. intros H. apply in_rev in H. apply lstrip_In in H.
  apply in_rev. exact H.
Qed.

Lemma lstrip_app (pre : str) x (r : str) :
  isspace x = false -> lstrip (pre ++ x :: r) = lstrip pre ++ x :: r.
Proof.
  intros Hx. induction pre as [| c p IH]; simpl.
  - rewrite Hx. reflexivity.
  - destruct (isspace c); [exact IH | reflexivity].
Qed.

Lemma rstrip_app (a : str) x (post : str) :
  isspace x = false -> rstrip (a ++ x :: post) = a ++ x :: rstrip post.
Proof.
  intros Hx. unfold rstrip.
  rewrite rev_app_distr. simpl rev at 1. rewrite <- app_assoc. simpl app at 2.
  rewrite (lstrip_app (rev post) x (rev a) Hx).
  rewrite rev_app_distr. simpl. rewrite rev_involutive, <- app_assoc. reflexivity.
Qed.

(** Stripping a text keeps a part that starts and ends with characters
    that are not white space. *)
Lemma strip_sandwich (pre mid post : str) x y :
  isspace x = false -> isspace y = false ->
  strip (pre ++ x :: mid ++ y :: post) = lstrip pre ++ x :: mid ++ y :: rstrip post.
Proof.
  intros Hx Hy. unfold strip. rewrite (lstrip_app pre x _ Hx).
  change (lstrip pre ++ x :: mid ++ y :: post)
    with (lstrip pre ++ (x :: mid) ++ y :: post).
  rewrite app_assoc, (rstrip_app _ y post Hy), <- app_assoc. reflexivity.
Qed.

Lemma startswith_length (old p : str) x (r : str) :
  startswith old (p ++ x :: r) = true -> ~ In x old -> (length old <= length p)%nat.
Proof.
  revert p. induction old as [| a old IH]; intros p H Hx; simpl; [lia |].
  destruct p as [| c p]; simpl in H.
  - apply andb_true_iff in H. destruct H as [H _]. apply N.eqb_eq in H.
    exfalso. apply Hx. left. exact H.
  - apply andb_true_iff in H. destruct H as [_ H].
    simpl. apply le_n_S, IH; [exact H |]. intros Hin. apply Hx. right. exact Hin.
Qed.

Lemma replace_from_In old k (s : str) c :
  In c (replace_from old [] k s) -> In c s.
Proof.
  revert k. induction s as [| x t IH]; intros k; simpl; [auto |].
  destruct k as [| k].
  - destruct (startswith old (x :: t)).
    + simpl. intros H. right. exact (IH _ H).
    + simpl. intros [H | H]; [left; exact H | right; exact (IH _ H)].
  - intros H. right. exact (IH _ H).
Qed.

Lemma startswith_app_l (old a b : str) :
  startswith old (a ++ b) = true -> (length old <= length a)%nat ->
  startswith old a = true.
Proof.
  revert a. induction old as [| x old IH]; intros a H Hl; [reflexivity |].
  destruct a as [| c a]; [simpl in Hl; lia |].
  simpl in *. apply andb_true_iff in H. destruct H as [Hx H].
  rewrite Hx. apply IH; [exact H | lia].
Qed.

Lemma startswith_trans (p old s : str) :
  startswith p old = true -> startswith old s = true -> startswith p s = true.
Proof.
  revert old s. induction p as [| x p IH]; intros old s Hp Ho; [reflexivity |].
  destruct old as [| y old]; [discriminate |].
  destruct s as [| c s]; [discriminate |].
  simpl in *. apply andb_true_iff in Hp, Ho.
  destruct Hp as [Hxy Hp], Ho as [Hyc Ho].
  apply N.eqb_eq in Hxy, Hyc. subst. rewrite N.eqb_refl. exact (IH _ _ Hp Ho).
Qed.

Lemma contains_suffix (p s1 s2 : str) :
  startswith p s2 = true -> contains p (s1 ++ s2) = true.
Proof.
  intros H. induction s1 as [| c s1 IH].
  - destruct s2; simpl; rewrite H; reflexivity.
  - cbn [app contains]. rewrite IH. apply orb_true_r.
Qed.

(** [old] starts nowhere inside a text that holds no [fence], when
    [old] starts with [fence] and does not hold the last character of the
    text. *)
Lemma no_match_inside (fence old body : str) y (r s1 s2 : str) :
  startswith fence old = true -> ~ In y old ->
  contains fence (body ++ [y]) = false ->
  body ++ [y] = s1 ++ s2 -> s2 <> [] ->
  startswith old (s2 ++ r) = false.
Proof.
  intros Hf Hy Hc E Hs2. apply not_true_is_false. intros Hm.
  destruct (exists_last Hs2) as (s2' & y' & ->).
  rewrite app_assoc in E. apply app_inj_tail in E. destruct E as [-> <-].
  rewrite <- app_assoc in Hm. cbn [app] in Hm.
  pose proof (startswith_length old s2' y r Hm Hy) as Hl.
  assert (Hp : startswith old (s2' ++ [y]) = true).
  { apply (startswith_app_l old (s2' ++ [y]) r).
    - rewrite <- app_assoc. exact Hm.
    - rewrite length_app. lia. }
  pose proof (contains_suffix fence s1 (s2' ++ [y]) (startswith_trans _ _ _ Hf Hp)) as Hin.
  rewrite app_assoc in Hin. congruence.
Qed.

(** A part inside which [old] starts nowhere is copied. *)
Lemma replace_from_keeps old (s r : str) :
  (forall s1 s2, s = s1 ++ s2 -> s2 <> [] -> startswith old (s2 ++ r) = false) ->
  replace_from old [] 0 (s ++ r) = s ++ replace_from old [] 0 r.
Proof.
  induction s as [| x t IH]; intros H; [reflexivity |].
  cbn [app replace_from].
  change (x :: t ++ r) with ((x :: t) ++ r).
  rewrite (H [] (x :: t) eq_refl ltac:(discriminate)).
  rewrite IH; [reflexivity |].
  intros s1 s2 -> Hs2. apply (H (x :: s1) s2 eq_refl Hs2).
Qed.

(** Deleting the occurrences of [old] from a text keeps a part inside
    which [old] starts nowhere and whose first character is not in
    [old]. *)
Lemma replace_from_sandwich old x (pre mid post : str) : forall k,
  (k <= length pre)%nat ->
  ~ In x old ->
  (forall s1 s2, x :: mid = s1 ++ s2 -> s2 <> [] -> startswith old (s2 ++ post) = false) ->
  exists pre' post',
    replace_from old [] k (pre ++ x :: mid ++ post) = pre' ++ x :: mid ++ post'
    /\ (forall c, In c pre' -> In c pre) /\ (forall c, In c post' -> In c post).
Proof.
  intros k Hk Hx Hin. revert k Hk.
  induction pre as [| c p IH]; intros k Hk.
  - simpl in Hk. assert (k = 0)%nat by lia. subst k. cbn [app].
    change (x :: mid ++ post) with ((x :: mid) ++ post).
    rewrite (replace_from_keeps old (x :: mid) post Hin).
    exists [], (replace_from old [] 0 post).
    split; [reflexivity |]. split; [intros ? [] |].
    intros c. apply replace_from_In.
  - cbn [app replace_from]. destruct k as [| k].
    + destruct (startswith old (c :: p ++ x :: mid ++ post)) eqn:Es.
      * assert (Hl := startswith_length old (c :: p) x (mid ++ post) Es Hx).
        simpl in Hl.
        destruct (IH (length old - 1)%nat ltac:(lia)) as (pre' & post' & E & Hp & Hq).
        exists pre', post'. cbn [app]. rewrite E.
        split; [reflexivity |]. split; [| exact Hq].
        intros a Ha. right. exact (Hp a Ha).
      * destruct (IH 0%nat ltac:(lia)) as (pre' & post' & E & Hp & Hq).
        exists (c :: pre'), post'. rewrite E.
        split; [reflexivity |]. split; [| exact Hq].
        intros a [Ha | Ha]; [left; exact Ha | right; exact (Hp a Ha)].
    + destruct (IH k ltac:(simpl in Hk; lia)) as (pre' & post' & E & Hp & Hq).
      exists pre', post'. rewrite E.
      split; [reflexivity |]. split; [| exact Hq].
      intros a Ha. right. exact (Hp a Ha).
Qed.

Lemma find_char_app c (a r : str) :
  ~ In c a -> find_char c (a ++ c :: r) = Z.of_nat (length a).
Proof.
  induction a as [| x a IH]; intros H; cbn [app find_char length].
  - rewrite N.eqb_refl. reflexivity.
  - destruct (N.eqb_spec x c) as [-> | _].
    + exfalso. apply H. left. reflexivity.
    + rewrite IH by (intros Hin; apply H; right; exact Hin).
      destruct (Z.eqb_spec (Z.of_nat (length a)) (-1)); lia.
Qed.

Lemma rfind_char_absent c (b : str) : ~ In c b -> rfind_char c b = (-1)%Z.
Proof.
  induction b as [| x b IH]; intros H; cbn [rfind_char]; [reflexivity |].
  rewrite IH by (intros Hin; apply H; right; exact Hin).
  cbn [Z.eqb]. destruct (N.eqb_spec x c) as [-> | _]; [| reflexivity].
  exfalso. apply H. left. reflexivity.
Qed.

Lemma rfind_char_app c (a b : str) :
  ~ In c b -> rfind_char c (a ++ c :: b) = Z.of_nat (length a).
Proof.
  intros H. induction a as [| x a IH]; cbn [app rfind_char length].
  - rewrite (rfind_char_absent c b H). cbn [Z.eqb]. rewrite N.eqb_refl. reflexivity.
  - rewrite IH. destruct (Z.eqb_spec (Z.of_nat (length a)) (-1)); lia.
Qed.

End StringFacts.

Section ExtractJsonFacts.

Context (W : World).

Lemma braced_app (mid post : str) :
  braced mid ++ post = ch_lbrace :: mid ++ ch_rbrace :: post.
Proof. unfold braced. cbn [app]. rewrite <- app_assoc. reflexivity. Qed.

(** The span from the first opening brace to the last closing brace of
    a text whose braces outside [braced mid] are none before it that
    open and none after it that close. *)
Lemma brace_span (a mid b : str) :
  ~ In ch_lbrace a -> ~ In ch_rbrace b ->
  let cleaned := a ++ braced mid ++ b in
  let start := find_char ch_lbrace cleaned in
  let end_ := rfind_char ch_rbrace cleaned in
  ((start =? -1)%Z || (end_ =? -1)%Z || (end_ <=? start)%Z = false)
  /\ slice start (end_ + 1) cleaned = braced mid.
Proof.
  intros Ha Hb. cbv zeta. rewrite braced_app.
  rewrite (find_char_app ch_lbrace a _ Ha).
  replace (a ++ ch_lbrace :: mid ++ ch_rbrace :: b)
    with ((a ++ ch_lbrace :: mid) ++ ch_rbrace :: b)
    by (rewrite <- app_assoc; reflexivity).
  rewrite (rfind_char_app ch_rbrace _ b Hb).
  rewrite length_app. cbn [length].
  split.
  - rewrite !orb_false_iff. repeat split.
    + apply Z.eqb_neq. lia.
    + apply Z.eqb_neq. lia.
    + apply Z.leb_gt. lia.
  - unfold slice.
    replace (Z.to_nat (Z.of_nat (length a + S (length mid)) + 1) - Z.to_nat (Z.of_nat (length a)))%nat
      with (length (braced mid)).
    2:{ unfold braced. cbn [length]. rewrite length_app. cbn [length]. lia. }
    rewrite Nat2Z.id, <- app_assoc.
    rewrite (skipn_exact a _ _ eq_refl).
    change ((ch_lbrace :: mid) ++ ch_rbrace :: b) with (ch_lbrace :: mid ++ ch_rbrace :: b).
    rewrite <- braced_app. apply firstn_exact. reflexivity.
Qed.

(** The fence markers are deleted around a braced text that holds no
    fence, and the text is kept. *)
Lemma fence_sandwich old (pre mid post : str) :
  startswith (py "```") old = true ->
  ~ In ch_lbrace old -> ~ In ch_rbrace old ->
  contains (py "```") (braced mid) = false ->
  exists pre' post',
    replace old [] (pre ++ braced mid ++ post) = pre' ++ braced mid ++ post'
    /\ (forall c, In c pre' -> In c pre) /\ (forall c, In c post' -> In c post).
Proof.
  intros Hf Hl Hr Hmid. unfold replace, braced. cbn [app].
  apply (replace_from_sandwich old ch_lbrace pre (mid ++ [ch_rbrace]) post 0%nat);
    [lia | exact Hl |].
  intros s1 s2 E Hs2.
  apply (no_match_inside (py "```") old (ch_lbrace :: mid) ch_rbrace post s1 s2);
    auto.
Qed.

End ExtractJsonFacts.

Section ExtractJsonClaims.

Context (W : World).

(** C4, as amended. When the parser reads the text [braced mid] of a
    JSON object as [O], that text holds no fence marker (three
    backticks), the text before it holds no opening brace and the text
    after it holds no closing brace, the extractor returns [O]: code
    fences and prose around the object are dropped. *)
Theorem extract_json_roundtrip (pre mid post : str) (O : json) :
  json_loads W (braced mid) = Ok O ->
  contains (py "```") (braced mid) = false ->
  has_char ch_lbrace pre = false ->
  has_char ch_rbrace post = false ->
  _extract_json W (pre ++ braced mid ++ post) = Ok O.
Proof.
  intros Hparse Hfence Hpre Hpost.
  apply has_char_false_iff in Hpre, Hpost.
  unfold _extract_json.
  replace (truthy (pre ++ braced mid ++ post)) with true
    by (destruct pre; reflexivity).
  cbn [negb].
  (* the first strip *)
  rewrite braced_app.
  rewrite (strip_sandwich pre mid post ch_lbrace ch_rbrace eq_refl eq_refl).
  rewrite <- braced_app.
  (* the two replacements *)
  destruct (fence_sandwich (py "```json") (lstrip pre) mid (rstrip post))
    as (pre1 & post1 & E1 & Hp1 & Hq1);
    [reflexivity | vm_compute; intuition discriminate
     | vm_compute; intuition discriminate | exact Hfence |].
  rewrite E1.
  destruct (fence_sandwich (py "```") pre1 mid post1)
    as (pre2 & post2 & E2 & Hp2 & Hq2);
    [reflexivity | vm_compute; intuition discriminate
     | vm_compute; intuition discriminate | exact Hfence |].
  rewrite E2.
  (* the second strip *)
  rewrite braced_app.
  rewrite (strip_sandwich pre2 mid post2 ch_lbrace ch_rbrace eq_refl eq_refl).
  rewrite <- braced_app.
  (* the span *)
  assert (Ha : ~ In ch_lbrace (lstrip pre2)).
  { intros H. apply Hpre, lstrip_In, Hp1, Hp2, lstrip_In, H. }
  assert (Hb : ~ In ch_rbrace (rstrip post2)).
  { intros H. apply Hpost, rstrip_In, Hq1, Hq2, rstrip_In, H. }
  destruct (brace_span (lstrip pre2) mid (rstrip post2) Ha Hb) as [Hcond Hslice].
  cbv zeta in Hcond, Hslice. rewrite Hcond, Hslice. exact Hparse.
Qed.

End ExtractJsonClaims.

(** The example of the specification: prose and a fence around the
    object. *)
Lemma extract_json_roundtrip_witness :
  _extract_json offline_world
    ((py "Here you go:" ++ nl ++ py "```json" ++ nl)
       ++ braced (dq ++ py "a" ++ dq ++ py ":1")
       ++ (nl ++ py "```" ++ nl ++ py "Thanks"))
  = Ok object_a_1.
Proof.
  apply (extract_json_roundtrip offline_world); reflexivity.
Defined.

(** C4 as stated fails: prose with braces of its own around an object
    the parser reads makes the extractor raise, and a fence marker inside
    a string of the object is deleted from it. *)
Lemma extract_json_prose_with_braces :
  (json_loads offline_world (braced (dq ++ py "a" ++ dq ++ py ":1")) = Ok object_a_1
   /\ _extract_json offline_world
        (py "Note {draft}: " ++ braced (dq ++ py "a" ++ dq ++ py ":1"))
      = Raise decode_error)
  /\ (json_loads offline_world (braced (dq ++ py "a" ++ dq ++ py ": " ++ dq ++ py "```" ++ dq))
      = Ok (JDict [(py "a", JStr (py "```"))])
      /\ _extract_json offline_world
           (braced (dq ++ py "a" ++ dq ++ py ": " ++ dq ++ py "```" ++ dq))
         = Ok (JDict [(py "a", JStr [])])).
Proof. repeat split; vm_compute; reflexivity. Qed.

(* ================================================================= *)
(** ** The orchestrator *)




Section OrchestratorFacts.

Context {U : Unicode} (W : World).









End OrchestratorFacts.

Section OrchestratorRun.

Context {U : Unicode} (W : World).







End OrchestratorRun.

Section OrchestratorClaims.

Context {U : Unicode} (W : World).





End OrchestratorClaims.








(* ================================================================= *)
(** ** Instances of the extractor statements *)

(** C6 on the URL of the specification: the path form is found at
    index 9 and nowhere before. *)
Lemma extract_asin_spec_witness :
  extract_asin (Some (py "https://x/dp/b07xj8c8f5/ref=abc")) = Some (py "B07XJ8C8F5").
Proof.
  refine (proj1 (proj2 (proj2 (@extract_asin_spec ascii_unicode
            (py "https://x/dp/b07xj8c8f5/ref=abc")))) 9%nat (py "b07xj8c8f5") _ _).
  - exists (py "https://x"), 100%N, 112%N, (py "/ref=abc").
    repeat split; auto.
  - intros j g' Hj Hat.
    let s := eval vm_compute in (strip (py "https://x/dp/b07xj8c8f5/ref=abc")) in
    change (strip (py "https://x/dp/b07xj8c8f5/ref=abc")) with s in Hat.
    do 9 (destruct j as [| j];
          [apply match_dp_spec in Hat; vm_compute in Hat; discriminate
          | apply dp_at_cons in Hat]).
    lia.
Defined.

(** C7 on a canonical code. *)
Lemma extract_asin_idempotent_witness :
  extract_asin (Some (py "B07XJ8C8F5")) = Some (py "B07XJ8C8F5").
Proof.
  apply (proj2 (proj2 (@extract_asin_idempotent ascii_unicode))).
  repeat split; reflexivity.
Defined.

(* ================================================================= *)
(** ** Examples *)

Example extract_asin_url :
  extract_asin (Some (py "https://x/dp/b07xj8c8f5/ref=abc")) = Some (py "B07XJ8C8F5").
Proof. vm_compute. reflexivity. Qed.

Example extract_asin_empty : extract_asin (Some (py "")) = None.
Proof. reflexivity. Qed.

(** A word of ten letters is a token of the second pattern. *)
Example extract_asin_word :
  extract_asin (Some (py "no identifier here")) = Some (py "IDENTIFIER").
Proof. vm_compute. reflexivity. Qed.

Example extract_json_no_braces :
  exists e, _extract_json offline_world (py "no braces at all") = Raise e.
Proof. eexists. vm_compute. reflexivity. Qed.
